(** * Verification of the localization catalog generator

    Shallow embedding of [generate_translations.py]: the translation
    table, the two entry builders, the loop that fills the catalog, the
    JSON serialisation of the catalog and the write of the output file.

    Python values are modelled as they occur in the script: a [str] is a
    [string] holding the bytes of its UTF-8 encoding, a [dict] is the list
    of its items in insertion order. *)

From Stdlib Require Import Ascii String.
From stdpp Require Import base option list strings pretty gmap.

Local Open Scope string_scope.
Local Open Scope list_scope.

(** The double quote character, for the table rows that contain one. *)
Definition dq : string := String (ascii_of_nat 34) EmptyString.

(** ** Insertion-ordered dictionaries

    A Python [dict] with [str] keys: the items in insertion order.
    [d[k] = v] on a key already present keeps the position of the key and
    replaces its value; on a new key it adds the item at the end. *)
Module Dict.
Section ops.
Context {V : Type}.

Fixpoint get (k : string) (d : list (string * V)) : option V :=
  match d with
  | [] => None
  | (k', v) :: d' => if String.eqb k k' then Some v else get k d'
  end.

Definition mem (k : string) (d : list (string * V)) : bool :=
  match get k d with Some _ => true | None => false end.

Fixpoint set (k : string) (v : V) (d : list (string * V)) : list (string * V) :=
  match d with
  | [] => [(k, v)]
  | (k', v') :: d' =>
      if String.eqb k k' then (k', v) :: d' else (k', v') :: set k v d'
  end.

Definition keys (d : list (string * V)) : list string := map fst d.

(** [d.update(items)]: the items are stored from left to right. *)
Definition update (items : list (string * V)) (d : list (string * V))
    : list (string * V) :=
  fold_left (fun d kv => set (fst kv) (snd kv) d) items d.

(** A dict display [{k1: v1, ..., kn: vn}], and [dict(pairs)]. *)
Definition display (items : list (string * V)) : list (string * V) :=
  update items [].

(** The invariant of every dict: no key occurs twice. *)
Fixpoint wfb (d : list (string * V)) : bool :=
  match d with
  | [] => true
  | (k, _) :: d' => negb (mem k d') && wfb d'
  end.

Definition wf (d : list (string * V)) : Prop := wfb d = true.
End ops.
End Dict.

(** ** Python objects

    The objects the script builds and hands to [json.dump]: strings and
    dicts with string keys. *)
Unset Elimination Schemes.
Inductive pyobj : Type :=
| Str (s : string)
| Dict (items : list (string * pyobj)).
Set Elimination Schemes.

(** [o[k]]; [None] stands for the [KeyError] or [TypeError] raised. *)
Definition getitem (k : string) (o : pyobj) : option pyobj :=
  match o with
  | Dict d => Dict.get k d
  | Str _ => None
  end.

(** [o[k] = v]; [None] stands for the [TypeError] raised on a [str]. *)
Definition setitem (k : string) (v : pyobj) (o : pyobj) : option pyobj :=
  match o with
  | Dict d => Some (Dict (Dict.set k v d))
  | Str _ => None
  end.

(** [o[k1][k2]...[kn]] *)
Fixpoint getpath (path : list string) (o : pyobj) : option pyobj :=
  match path with
  | [] => Some o
  | k :: path' => o' ← getitem k o; getpath path' o'
  end.

(** The keys of a dict object, and none for a string. *)
Definition keys_of (o : pyobj) : list string :=
  match o with
  | Dict d => Dict.keys d
  | Str _ => []
  end.

(** ** The translation table

    English text to (language code to translation). *)
Abbreviation row := (list (string * string)).
Abbreviation table := (list (string * list (string * string))).

Definition translations : table :=
  [
    ("Cancel",
      [ ("de", "Abbrechen");
        ("es", "Cancelar");
        ("fr", "Annuler");
        ("zh-Hans", "取消");
        ("pt", "Cancelar");
        ("ja", "キャンセル");
        ("ru", "Отменить");
        ("ko", "취소");
        ("it", "Annulla") ]);
    ("Cancel scan",
      [ ("de", "Scan abbrechen");
        ("es", "Cancelar escaneo");
        ("fr", "Annuler l'analyse");
        ("zh-Hans", "取消扫描");
        ("pt", "Cancelar verificação");
        ("ja", "スキャンをキャンセル");
        ("ru", "Отменить сканирование");
        ("ko", "스캔 취소");
        ("it", "Annulla scansione") ]);
    ("Clear filename filter",
      [ ("de", "Dateinamenfilter löschen");
        ("es", "Borrar filtro de nombre");
        ("fr", "Effacer le filtre de nom");
        ("zh-Hans", "清除文件名筛选");
        ("pt", "Limpar filtro de nome");
        ("ja", "ファイル名フィルターをクリア");
        ("ru", "Очистить фильтр имени");
        ("ko", "파일 이름 필터 지우기");
        ("it", "Cancella filtro nome") ]);
    (("Click " +:+ dq +:+ "Scan Folder" +:+ dq +:+ " to analyze disk usage"),
      [ ("de", ("Klicken Sie auf " +:+ dq +:+ "Ordner scannen" +:+ dq +:+ ", um die Festplattennutzung zu analysieren"));
        ("es", ("Haga clic en " +:+ dq +:+ "Escanear carpeta" +:+ dq +:+ " para analizar el uso del disco"));
        ("fr", ("Cliquez sur " +:+ dq +:+ "Analyser le dossier" +:+ dq +:+ " pour analyser l'utilisation du disque"));
        ("zh-Hans", ("点击" +:+ dq +:+ "扫描文件夹" +:+ dq +:+ "以分析磁盘使用情况"));
        ("pt", ("Clique em " +:+ dq +:+ "Verificar pasta" +:+ dq +:+ " para analisar o uso do disco"));
        ("ja", "「フォルダーをスキャン」をクリックしてディスク使用量を分析");
        ("ru", ("Нажмите " +:+ dq +:+ "Сканировать папку" +:+ dq +:+ " для анализа использования диска"));
        ("ko", (dq +:+ "폴더 스캔" +:+ dq +:+ "을 클릭하여 디스크 사용량 분석"));
        ("it", ("Fai clic su " +:+ dq +:+ "Scansiona cartella" +:+ dq +:+ " per analizzare l'uso del disco")) ]);
    ("Delete",
      [ ("de", "Löschen");
        ("es", "Eliminar");
        ("fr", "Supprimer");
        ("zh-Hans", "删除");
        ("pt", "Excluir");
        ("ja", "削除");
        ("ru", "Удалить");
        ("ko", "삭제");
        ("it", "Elimina") ]);
    ("Enter text or wildcards to filter files by name. Use asterisk for any characters.",
      [ ("de", "Geben Sie Text oder Platzhalter ein, um Dateien nach Namen zu filtern. Verwenden Sie Sternchen für beliebige Zeichen.");
        ("es", "Ingrese texto o comodines para filtrar archivos por nombre. Use asterisco para cualquier carácter.");
        ("fr", "Saisissez du texte ou des caractères génériques pour filtrer les fichiers par nom. Utilisez l'astérisque pour n'importe quel caractère.");
        ("zh-Hans", "输入文本或通配符以按名称筛选文件。使用星号表示任意字符。");
        ("pt", "Digite texto ou curingas para filtrar arquivos por nome. Use asterisco para qualquer caractere.");
        ("ja", "テキストまたはワイルドカードを入力して、名前でファイルをフィルター。任意の文字にはアスタリスクを使用。");
        ("ru", "Введите текст или подстановочные знаки для фильтрации файлов по имени. Используйте звездочку для любых символов.");
        ("ko", "이름으로 파일을 필터링하려면 텍스트 또는 와일드카드를 입력하세요. 모든 문자에 별표를 사용하세요.");
        ("it", "Inserisci testo o caratteri jolly per filtrare i file per nome. Usa l'asterisco per qualsiasi carattere.") ]);
    ("Filename filter",
      [ ("de", "Dateinamenfilter");
        ("es", "Filtro de nombre");
        ("fr", "Filtre de nom");
        ("zh-Hans", "文件名筛选");
        ("pt", "Filtro de nome");
        ("ja", "ファイル名フィルター");
        ("ru", "Фильтр имени");
        ("ko", "파일 이름 필터");
        ("it", "Filtro nome file") ]);
    ("Filter by name (*.ts, node_modules, etc.)",
      [ ("de", "Nach Namen filtern (*.ts, node_modules, usw.)");
        ("es", "Filtrar por nombre (*.ts, node_modules, etc.)");
        ("fr", "Filtrer par nom (*.ts, node_modules, etc.)");
        ("zh-Hans", "按名称筛选（*.ts、node_modules 等）");
        ("pt", "Filtrar por nome (*.ts, node_modules, etc.)");
        ("ja", "名前でフィルター（*.ts、node_modules など）");
        ("ru", "Фильтр по имени (*.ts, node_modules и т.д.)");
        ("ko", "이름으로 필터링 (*.ts, node_modules 등)");
        ("it", "Filtra per nome (*.ts, node_modules, ecc.)") ]);
    ("Hidden",
      [ ("de", "Ausgeblendet");
        ("es", "Oculto");
        ("fr", "Masqué");
        ("zh-Hans", "已隐藏");
        ("pt", "Oculto");
        ("ja", "非表示");
        ("ru", "Скрыто");
        ("ko", "숨김");
        ("it", "Nascosto") ]);
    ("Moves the selected item to trash. Requires confirmation.",
      [ ("de", "Verschiebt das ausgewählte Element in den Papierkorb. Erfordert Bestätigung.");
        ("es", "Mueve el elemento seleccionado a la papelera. Requiere confirmación.");
        ("fr", "Déplace l'élément sélectionné vers la corbeille. Nécessite une confirmation.");
        ("zh-Hans", "将所选项目移至废纸篓。需要确认。");
        ("pt", "Move o item selecionado para a lixeira. Requer confirmação.");
        ("ja", "選択した項目をゴミ箱に移動します。確認が必要です。");
        ("ru", "Перемещает выбранный элемент в корзину. Требует подтверждения.");
        ("ko", "선택한 항목을 휴지통으로 이동합니다. 확인이 필요합니다.");
        ("it", "Sposta l'elemento selezionato nel cestino. Richiede conferma.") ]);
    ("Name:",
      [ ("de", "Name:");
        ("es", "Nombre:");
        ("fr", "Nom:");
        ("zh-Hans", "名称：");
        ("pt", "Nome:");
        ("ja", "名前：");
        ("ru", "Имя:");
        ("ko", "이름:");
        ("it", "Nome:") ]);
    ("No file or folder selected",
      [ ("de", "Keine Datei oder Ordner ausgewählt");
        ("es", "Ningún archivo o carpeta seleccionado");
        ("fr", "Aucun fichier ou dossier sélectionné");
        ("zh-Hans", "未选择文件或文件夹");
        ("pt", "Nenhum arquivo ou pasta selecionado");
        ("ja", "ファイルまたはフォルダーが選択されていません");
        ("ru", "Файл или папка не выбраны");
        ("ko", "선택된 파일 또는 폴더 없음");
        ("it", "Nessun file o cartella selezionato") ]);
    ("No filter",
      [ ("de", "Kein Filter");
        ("es", "Sin filtro");
        ("fr", "Aucun filtre");
        ("zh-Hans", "无筛选");
        ("pt", "Sem filtro");
        ("ja", "フィルターなし");
        ("ru", "Без фильтра");
        ("ko", "필터 없음");
        ("it", "Nessun filtro") ]);
    ("No selection",
      [ ("de", "Keine Auswahl");
        ("es", "Sin selección");
        ("fr", "Aucune sélection");
        ("zh-Hans", "未选择");
        ("pt", "Nenhuma seleção");
        ("ja", "選択なし");
        ("ru", "Не выбрано");
        ("ko", "선택 없음");
        ("it", "Nessuna selezione") ]);
    ("Not selected",
      [ ("de", "Nicht ausgewählt");
        ("es", "No seleccionado");
        ("fr", "Non sélectionné");
        ("zh-Hans", "未选择");
        ("pt", "Não selecionado");
        ("ja", "未選択");
        ("ru", "Не выбрано");
        ("ko", "선택되지 않음");
        ("it", "Non selezionato") ]);
    ("Open in Application",
      [ ("de", "In Programm öffnen");
        ("es", "Abrir en aplicación");
        ("fr", "Ouvrir dans l'application");
        ("zh-Hans", "在应用程序中打开");
        ("pt", "Abrir no aplicativo");
        ("ja", "アプリケーションで開く");
        ("ru", "Открыть в приложении");
        ("ko", "응용 프로그램에서 열기");
        ("it", "Apri nell'applicazione") ]);
    ("Opens a folder picker to select a folder to analyze",
      [ ("de", "Öffnet eine Ordnerauswahl, um einen zu analysierenden Ordner auszuwählen");
        ("es", "Abre un selector de carpetas para seleccionar una carpeta para analizar");
        ("fr", "Ouvre un sélecteur de dossier pour choisir un dossier à analyser");
        ("zh-Hans", "打开文件夹选择器以选择要分析的文件夹");
        ("pt", "Abre um seletor de pastas para selecionar uma pasta para analisar");
        ("ja", "分析するフォルダーを選択するためのフォルダーピッカーを開きます");
        ("ru", "Открывает средство выбора папки для анализа");
        ("ko", "분석할 폴더를 선택하기 위한 폴더 선택기를 엽니다");
        ("it", "Apre un selettore di cartelle per scegliere una cartella da analizzare") ]);
    ("Opens the selected file in its default application",
      [ ("de", "Öffnet die ausgewählte Datei in ihrem Standardprogramm");
        ("es", "Abre el archivo seleccionado en su aplicación predeterminada");
        ("fr", "Ouvre le fichier sélectionné dans son application par défaut");
        ("zh-Hans", "在默认应用程序中打开所选文件");
        ("pt", "Abre o arquivo selecionado em seu aplicativo padrão");
        ("ja", "選択したファイルをデフォルトのアプリケーションで開きます");
        ("ru", "Открывает выбранный файл в приложении по умолчанию");
        ("ko", "기본 응용 프로그램에서 선택한 파일을 엽니다");
        ("it", "Apre il file selezionato nell'applicazione predefinita") ]);
    ("Opens this folder in the treemap",
      [ ("de", "Öffnet diesen Ordner in der Baumkarte");
        ("es", "Abre esta carpeta en el mapa de árbol");
        ("fr", "Ouvre ce dossier dans la carte arborescente");
        ("zh-Hans", "在树状图中打开此文件夹");
        ("pt", "Abre esta pasta no mapa de árvore");
        ("ja", "ツリーマップでこのフォルダーを開きます");
        ("ru", "Открывает эту папку в древовидной карте");
        ("ko", "트리맵에서 이 폴더를 엽니다");
        ("it", "Apre questa cartella nella mappa ad albero") ]);
    ("Ready to Scan",
      [ ("de", "Bereit zum Scannen");
        ("es", "Listo para escanear");
        ("fr", "Prêt à analyser");
        ("zh-Hans", "准备扫描");
        ("pt", "Pronto para verificar");
        ("ja", "スキャン準備完了");
        ("ru", "Готов к сканированию");
        ("ko", "스캔 준비 완료");
        ("it", "Pronto per la scansione") ]);
    ("Removes the filename filter to show all files",
      [ ("de", "Entfernt den Dateinamenfilter, um alle Dateien anzuzeigen");
        ("es", "Elimina el filtro de nombre para mostrar todos los archivos");
        ("fr", "Supprime le filtre de nom pour afficher tous les fichiers");
        ("zh-Hans", "删除文件名筛选以显示所有文件");
        ("pt", "Remove o filtro de nome para mostrar todos os arquivos");
        ("ja", "ファイル名フィルターを削除してすべてのファイルを表示");
        ("ru", "Удаляет фильтр имени для отображения всех файлов");
        ("ko", "파일 이름 필터를 제거하여 모든 파일 표시");
        ("it", "Rimuove il filtro nome per mostrare tutti i file") ]);
    ("Resets the scan state so you can select a new folder",
      [ ("de", "Setzt den Scanstatus zurück, damit Sie einen neuen Ordner auswählen können");
        ("es", "Restablece el estado del escaneo para que pueda seleccionar una nueva carpeta");
        ("fr", "Réinitialise l'état de l'analyse afin que vous puissiez sélectionner un nouveau dossier");
        ("zh-Hans", "重置扫描状态，以便您可以选择新文件夹");
        ("pt", "Redefine o estado de verificação para que você possa selecionar uma nova pasta");
        ("ja", "スキャン状態をリセットして新しいフォルダーを選択できるようにします");
        ("ru", "Сбрасывает состояние сканирования, чтобы вы могли выбрать новую папку");
        ("ko", "스캔 상태를 재설정하여 새 폴더를 선택할 수 있습니다");
        ("it", "Ripristina lo stato di scansione in modo da poter selezionare una nuova cartella") ]);
    ("Reveals the selected item in Finder",
      [ ("de", "Zeigt das ausgewählte Element im Finder an");
        ("es", "Revela el elemento seleccionado en Finder");
        ("fr", "Révèle l'élément sélectionné dans le Finder");
        ("zh-Hans", "在访达中显示所选项目");
        ("pt", "Revela o item selecionado no Finder");
        ("ja", "Finderで選択した項目を表示");
        ("ru", "Показывает выбранный элемент в Finder");
        ("ko", "Finder에서 선택한 항목 표시");
        ("it", "Rivela l'elemento selezionato nel Finder") ]);
    ("Scan",
      [ ("de", "Scannen");
        ("es", "Escanear");
        ("fr", "Analyser");
        ("zh-Hans", "扫描");
        ("pt", "Verificar");
        ("ja", "スキャン");
        ("ru", "Сканировать");
        ("ko", "스캔");
        ("it", "Scansiona") ]);
    ("Scan Failed",
      [ ("de", "Scan fehlgeschlagen");
        ("es", "Escaneo fallido");
        ("fr", "Échec de l'analyse");
        ("zh-Hans", "扫描失败");
        ("pt", "Verificação falhou");
        ("ja", "スキャン失敗");
        ("ru", "Сканирование не удалось");
        ("ko", "스캔 실패");
        ("it", "Scansione fallita") ]);
    ("Scan Folder",
      [ ("de", "Ordner scannen");
        ("es", "Escanear carpeta");
        ("fr", "Analyser le dossier");
        ("zh-Hans", "扫描文件夹");
        ("pt", "Verificar pasta");
        ("ja", "フォルダーをスキャン");
        ("ru", "Сканировать папку");
        ("ko", "폴더 스캔");
        ("it", "Scansiona cartella") ]);
    ("Scan folder",
      [ ("de", "Ordner scannen");
        ("es", "Escanear carpeta");
        ("fr", "Analyser le dossier");
        ("zh-Hans", "扫描文件夹");
        ("pt", "Verificar pasta");
        ("ja", "フォルダーをスキャン");
        ("ru", "Сканировать папку");
        ("ko", "폴더 스캔");
        ("it", "Scansiona cartella") ]);
    ("Scanning in progress",
      [ ("de", "Scan läuft");
        ("es", "Escaneo en progreso");
        ("fr", "Analyse en cours");
        ("zh-Hans", "正在扫描");
        ("pt", "Verificação em andamento");
        ("ja", "スキャン中");
        ("ru", "Выполняется сканирование");
        ("ko", "스캔 진행 중");
        ("it", "Scansione in corso") ]);
    ("Scanning...",
      [ ("de", "Scannen...");
        ("es", "Escaneando...");
        ("fr", "Analyse...");
        ("zh-Hans", "正在扫描...");
        ("pt", "Verificando...");
        ("ja", "スキャン中...");
        ("ru", "Сканирование...");
        ("ko", "스캔 중...");
        ("it", "Scansione...") ]);
    ("Select a folder to analyze",
      [ ("de", "Wählen Sie einen Ordner zum Analysieren aus");
        ("es", "Seleccione una carpeta para analizar");
        ("fr", "Sélectionnez un dossier à analyser");
        ("zh-Hans", "选择要分析的文件夹");
        ("pt", "Selecione uma pasta para analisar");
        ("ja", "分析するフォルダーを選択");
        ("ru", "Выберите папку для анализа");
        ("ko", "분석할 폴더 선택");
        ("it", "Seleziona una cartella da analizzare") ]);
    ("Selected",
      [ ("de", "Ausgewählt");
        ("es", "Seleccionado");
        ("fr", "Sélectionné");
        ("zh-Hans", "已选择");
        ("pt", "Selecionado");
        ("ja", "選択済み");
        ("ru", "Выбрано");
        ("ko", "선택됨");
        ("it", "Selezionato") ]);
    ("Show in Finder",
      [ ("de", "Im Finder anzeigen");
        ("es", "Mostrar en Finder");
        ("fr", "Afficher dans le Finder");
        ("zh-Hans", "在访达中显示");
        ("pt", "Mostrar no Finder");
        ("ja", "Finderで表示");
        ("ru", "Показать в Finder");
        ("ko", "Finder에서 보기");
        ("it", "Mostra nel Finder") ]);
    ("Shown",
      [ ("de", "Angezeigt");
        ("es", "Mostrado");
        ("fr", "Affiché");
        ("zh-Hans", "已显示");
        ("pt", "Exibido");
        ("ja", "表示中");
        ("ru", "Показано");
        ("ko", "표시됨");
        ("it", "Mostrato") ]);
    ("Size:",
      [ ("de", "Größe:");
        ("es", "Tamaño:");
        ("fr", "Taille:");
        ("zh-Hans", "大小：");
        ("pt", "Tamanho:");
        ("ja", "サイズ：");
        ("ru", "Размер:");
        ("ko", "크기:");
        ("it", "Dimensione:") ]);
    ("Stops the current folder scan",
      [ ("de", "Stoppt den aktuellen Ordnerscan");
        ("es", "Detiene el escaneo de carpeta actual");
        ("fr", "Arrête l'analyse de dossier en cours");
        ("zh-Hans", "停止当前文件夹扫描");
        ("pt", "Para a verificação de pasta atual");
        ("ja", "現在のフォルダースキャンを停止");
        ("ru", "Останавливает текущее сканирование папки");
        ("ko", "현재 폴더 스캔 중지");
        ("it", "Ferma la scansione della cartella corrente") ]);
    ("Try Again",
      [ ("de", "Erneut versuchen");
        ("es", "Intentar de nuevo");
        ("fr", "Réessayer");
        ("zh-Hans", "重试");
        ("pt", "Tentar novamente");
        ("ja", "再試行");
        ("ru", "Повторить попытку");
        ("ko", "다시 시도");
        ("it", "Riprova") ]);
    ("Try scanning again",
      [ ("de", "Erneut scannen");
        ("es", "Intentar escanear nuevamente");
        ("fr", "Essayez d'analyser à nouveau");
        ("zh-Hans", "重新扫描");
        ("pt", "Tente verificar novamente");
        ("ja", "再度スキャンしてみる");
        ("ru", "Попробуйте сканирование снова");
        ("ko", "다시 스캔 시도");
        ("it", "Prova a scansionare di nuovo") ]);
    ("Type:",
      [ ("de", "Typ:");
        ("es", "Tipo:");
        ("fr", "Type:");
        ("zh-Hans", "类型：");
        ("pt", "Tipo:");
        ("ja", "タイプ：");
        ("ru", "Тип:");
        ("ko", "유형:");
        ("it", "Tipo:") ]);
    ("Wildcards: * (any)",
      [ ("de", "Platzhalter: * (beliebig)");
        ("es", "Comodines: * (cualquiera)");
        ("fr", "Caractères génériques: * (quelconque)");
        ("zh-Hans", "通配符：*（任意）");
        ("pt", "Curingas: * (qualquer)");
        ("ja", "ワイルドカード：*（任意）");
        ("ru", "Подстановочные знаки: * (любые)");
        ("ko", "와일드카드: * (모든)");
        ("it", "Caratteri jolly: * (qualsiasi)") ])
  ].

(** ** The builders *)

Definition create_localization_entry (lang_code value : string) : pyobj :=
  Dict [("stringUnit", Dict [("state", Str "translated"); ("value", Str value)])].

(** The body of the [for] loop over [translations[english_text].items()]. *)
Definition add_localization (localizations : list (string * pyobj))
    (item : string * string) : list (string * pyobj) :=
  let '(lang_code, translation) := item in
  Dict.set lang_code (create_localization_entry lang_code translation) localizations.

Definition create_string_entry (translations : table) (english_text : string) : pyobj :=
  let localizations := [("en", create_localization_entry "en" english_text)] in
  let localizations :=
    match Dict.get english_text translations with
    | Some items => fold_left add_localization items localizations
    | None => localizations
    end in
  Dict [("localizations", Dict localizations)].

(** The catalog before the loop. *)
Definition catalog_init : pyobj :=
  Dict [("sourceLanguage", Str "en"); ("strings", Dict []); ("version", Str "1.0")].

(** [catalog["strings"][english_text] = entry]: the dict under
    ["strings"] is updated in place, so the catalog sees the new item. *)
Definition add_string (catalog : pyobj) (english_text : string) (entry : pyobj)
    : option pyobj :=
  strings ← getitem "strings" catalog;
  strings' ← setitem english_text entry strings;
  setitem "strings" strings' catalog.

(** The loop [for english_text in translations.keys()]. *)
Fixpoint add_entries (translations : table) (todo : list string) (catalog : pyobj)
    : option pyobj :=
  match todo with
  | [] => Some catalog
  | english_text :: todo' =>
      catalog' ← add_string catalog english_text
                   (create_string_entry translations english_text);
      add_entries translations todo' catalog'
  end.

Definition build_catalog (translations : table) : option pyobj :=
  add_entries translations (Dict.keys translations) catalog_init.

Definition catalog : option pyobj := build_catalog translations.

(** ** [json.dump] with [ensure_ascii=False] and [indent=2]

    The encoder of the standard library, for the objects above. With
    [ensure_ascii=False] only the quote, the backslash and the control
    characters below 0x20 are escaped; these are single bytes in UTF-8 and
    no byte of a longer sequence is below 0x80, so escaping the bytes of the
    encoding gives the encoding of the escaped text. *)

Definition backslash : ascii := ascii_of_nat 92.
Definition newline : ascii := ascii_of_nat 10.

Definition hex_digit (d : nat) : ascii :=
  ascii_of_nat (if Nat.ltb d 10 then 48 + d else 87 + d).

(** [ESCAPE_DCT] *)
Definition escape_char (c : ascii) : string :=
  let n := nat_of_ascii c in
  if Nat.eqb n 92 then String backslash (String backslash EmptyString)
  else if Nat.eqb n 34 then String backslash dq
  else if Nat.eqb n 8 then String backslash "b"
  else if Nat.eqb n 12 then String backslash "f"
  else if Nat.eqb n 10 then String backslash "n"
  else if Nat.eqb n 13 then String backslash "r"
  else if Nat.eqb n 9 then String backslash "t"
  else if Nat.ltb n 32 then
    String backslash
      (String "u" (String "0" (String "0"
        (String (hex_digit (n / 16)) (String (hex_digit (n mod 16)) EmptyString)))))
  else String c EmptyString.

Fixpoint escape (s : string) : string :=
  match s with
  | EmptyString => EmptyString
  | String c s' => escape_char c +:+ escape s'
  end.

(** [py_encode_basestring] *)
Definition encode_basestring (s : string) : string :=
  dq +:+ escape s +:+ dq.

Fixpoint spaces (n : nat) : string :=
  match n with
  | 0 => EmptyString
  | S n' => String " " (spaces n')
  end.

(** ['\n' + _indent * _current_indent_level], with [_indent] two spaces. *)
Definition newline_indent (level : nat) : string :=
  String newline (spaces (2 * level)).

Section encode_items.
Variable encode_value : pyobj -> string.
Variable item_separator : string.

(** The loop of [_iterencode_dict] over the items. *)
Fixpoint encode_items (first : bool) (items : list (string * pyobj)) : string :=
  match items with
  | [] => EmptyString
  | (key, value) :: items' =>
      (if first then EmptyString else item_separator)
      +:+ encode_basestring key +:+ ": " +:+ encode_value value
      +:+ encode_items false items'
  end.
End encode_items.

(** [_iterencode], all chunks joined. *)
Fixpoint iterencode (level : nat) (o : pyobj) {struct o} : string :=
  match o with
  | Str s => encode_basestring s
  | Dict [] => "{}"
  | Dict items =>
      "{" +:+ newline_indent (S level)
      +:+ encode_items (iterencode (S level)) ("," +:+ newline_indent (S level)) true items
      +:+ newline_indent level +:+ "}"
  end.

Definition json_dumps (o : pyobj) : string := iterencode 0 o.

(** ** The run of the script

    The world the script acts on: the files (path to content) and the
    lines printed. Opening a file with mode ["w"] truncates it, so the
    write replaces the content. The definitions below describe a run that
    completes: the exception [open] raises when the path cannot be written,
    and the one the write raises on a text without a UTF-8 encoding (a
    [string] here is the bytes of an encoding), are not modelled. *)
Record world : Type := World {
  files : list (string * string);
  stdout : list string
}.

Definition output_path : string :=
  "/Users/bchapuis/Projects/bchapuis/diskmanager/FolderCleaner/Localizable.xcstrings".

Definition json_dump (o : pyobj) (path : string) (w : world) : world :=
  World (Dict.set path (json_dumps o) (files w)) (stdout w).

Definition print (line : string) (w : world) : world :=
  World (files w) (stdout w ++ [line]).

Definition run (translations : table) (w : world) : option world :=
  catalog ← build_catalog translations;
  let w := json_dump catalog output_path w in
  Some (print ("✓ Generated translations for " +:+ pretty (length translations)
               +:+ " strings in 10 languages") w).

(** The whole script: the steps above, then the second [print]. *)
Definition script (translations : table) (w : world) : option world :=
  w ← run translations w;
  Some (print "  Languages: EN, DE, ES, FR, ZH-Hans, PT, JA, RU, KO, IT" w).

Definition main (w : world) : option world := script translations w.

(** ** [json.loads]

    The decoder of the standard library on the documents the encoder above
    emits: objects and strings. Arrays, numbers, the literals and a
    [\u] escape above 007f are outside this fragment and give [None], as do
    the documents the decoder rejects. *)

(** [WHITESPACE]: space, tab, line feed, carriage return. *)
Definition is_ws (c : ascii) : bool :=
  let n := nat_of_ascii c in
  Nat.eqb n 32 || Nat.eqb n 9 || Nat.eqb n 10 || Nat.eqb n 13.

Fixpoint skip_ws (s : string) : string :=
  match s with
  | String c s' => if is_ws c then skip_ws s' else s
  | EmptyString => s
  end.

Definition hex_value (c : ascii) : option nat :=
  let n := nat_of_ascii c in
  if Nat.leb 48 n && Nat.leb n 57 then Some (n - 48)
  else if Nat.leb 97 n && Nat.leb n 102 then Some (n - 87)
  else if Nat.leb 65 n && Nat.leb n 70 then Some (n - 55)
  else None.

(** [_decode_uXXXX], for the code points that are one byte in UTF-8. *)
Definition decode_uXXXX (h1 h2 h3 h4 : ascii) : option ascii :=
  d1 ← hex_value h1; d2 ← hex_value h2; d3 ← hex_value h3; d4 ← hex_value h4;
  let cp := ((d1 * 16 + d2) * 16 + d3) * 16 + d4 in
  if Nat.ltb cp 128 then Some (ascii_of_nat cp) else None.

(** [BACKSLASH]: the character a one-letter escape stands for. *)
Definition unescape_char (e : ascii) : option ascii :=
  let n := nat_of_ascii e in
  if Nat.eqb n 34 then Some e
  else if Nat.eqb n 92 then Some e
  else if Nat.eqb n 47 then Some e
  else if Nat.eqb n 98 then Some (ascii_of_nat 8)
  else if Nat.eqb n 102 then Some (ascii_of_nat 12)
  else if Nat.eqb n 110 then Some (ascii_of_nat 10)
  else if Nat.eqb n 114 then Some (ascii_of_nat 13)
  else if Nat.eqb n 116 then Some (ascii_of_nat 9)
  else None.

(** [scanstring] in strict mode, from just after the opening quote: the
    text of the string and the rest of the input after the closing quote. *)
Fixpoint scanstring (s : string) : option (string * string) :=
  match s with
  | EmptyString => None
  | String c s' =>
      if Nat.eqb (nat_of_ascii c) 34 then Some (EmptyString, s')
      else if Nat.eqb (nat_of_ascii c) 92 then
        match s' with
        | EmptyString => None
        | String e s'' =>
            if Nat.eqb (nat_of_ascii e) 117 then
              match s'' with
              | String h1 (String h2 (String h3 (String h4 s'''))) =>
                  ch ← decode_uXXXX h1 h2 h3 h4;
                  r ← scanstring s''';
                  Some (String ch (fst r), snd r)
              | _ => None
              end
            else
              ch ← unescape_char e;
              r ← scanstring s'';
              Some (String ch (fst r), snd r)
        end
      else if Nat.ltb (nat_of_ascii c) 32 then None
      else
        r ← scanstring s';
        Some (String c (fst r), snd r)
  end.

(** [scan_once] and the loop of [JSONObject] over the members; the fuel
    bounds the number of nested calls. The pairs of an object are made into
    a dict, so of two members with one key the later value is kept. *)
Fixpoint scan_once (fuel : nat) (s : string) : option (pyobj * string) :=
  match fuel with
  | 0 => None
  | S fuel' =>
      match s with
      | EmptyString => None
      | String c s' =>
          if Nat.eqb (nat_of_ascii c) 34 then
            r ← scanstring s';
            Some (Str (fst r), snd r)
          else if Nat.eqb (nat_of_ascii c) 123 then
            match skip_ws s' with
            | EmptyString => None
            | String c1 s1 =>
                if Nat.eqb (nat_of_ascii c1) 125 then Some (Dict [], s1)
                else if Nat.eqb (nat_of_ascii c1) 34 then
                  r ← scan_members fuel' s1;
                  Some (Dict (Dict.display (fst r)), snd r)
                else None
            end
          else None
      end
  end
with scan_members (fuel : nat) (s : string)
    : option (list (string * pyobj) * string) :=
  match fuel with
  | 0 => None
  | S fuel' =>
      k ← scanstring s;
      match skip_ws (snd k) with
      | EmptyString => None
      | String c s1 =>
          if Nat.eqb (nat_of_ascii c) 58 then
            v ← scan_once fuel' (skip_ws s1);
            match skip_ws (snd v) with
            | EmptyString => None
            | String c2 s2 =>
                if Nat.eqb (nat_of_ascii c2) 125 then
                  Some ([(fst k, fst v)], s2)
                else if Nat.eqb (nat_of_ascii c2) 44 then
                  match skip_ws s2 with
                  | EmptyString => None
                  | String c3 s3 =>
                      if Nat.eqb (nat_of_ascii c3) 34 then
                        r ← scan_members fuel' s3;
                        Some ((fst k, fst v) :: fst r, snd r)
                      else None
                  end
                else None
            end
          else None
      end
  end.

(** [JSONDecoder.decode]: one value between optional white space, and
    nothing after it. *)
Definition json_loads (s : string) : option pyobj :=
  r ← scan_once (String.length s) (skip_ws s);
  match skip_ws (snd r) with
  | EmptyString => Some (fst r)
  | String _ _ => None
  end.

(** ** Reading a table back from a catalog

    The inverse direction, as the specification words it: of each entry
    take the localizations, leave out the unit of the source language and
    keep, for every other language code, the value of its string unit. *)
Definition unit_value (u : pyobj) : option string :=
  v ← getpath ["stringUnit"; "value"] u;
  match v with
  | Str s => Some s
  | Dict _ => None
  end.

Fixpoint rederive_units (localizations : list (string * pyobj)) : option row :=
  match localizations with
  | [] => Some []
  | (lang_code, u) :: rest =>
      if String.eqb lang_code "en" then rederive_units rest
      else
        value ← unit_value u;
        items ← rederive_units rest;
        Some ((lang_code, value) :: items)
  end.

Definition rederive_row (entry : pyobj) : option row :=
  localizations ← getitem "localizations" entry;
  match localizations with
  | Dict items => rederive_units items
  | Str _ => None
  end.

Fixpoint rederive_entries (entries : list (string * pyobj)) : option table :=
  match entries with
  | [] => Some []
  | (english_text, entry) :: rest =>
      items ← rederive_row entry;
      rows ← rederive_entries rest;
      Some ((english_text, items) :: rows)
  end.

Definition rederive_table (document : pyobj) : option table :=
  strings ← getitem "strings" document;
  match strings with
  | Dict entries => rederive_entries entries
  | Str _ => None
  end.

(** ** Notions used in the statements *)

(** A table as Python holds it: no source string twice, and no language
    code twice in a row. *)
Definition table_wf (t : table) : bool :=
  Dict.wfb t && forallb (fun kv => Dict.wfb (snd kv)) t.

(** No row has an item for the source language. *)
Definition rows_without_en (t : table) : bool :=
  forallb (fun kv => negb (Dict.mem "en" (snd kv))) t.

(** Every dict of an object satisfies the invariant of dicts. *)
Fixpoint obj_wf (o : pyobj) : bool :=
  match o with
  | Str _ => true
  | Dict items =>
      Dict.wfb items
      && (fix all (l : list (string * pyobj)) : bool :=
            match l with
            | [] => true
            | kv :: l' => obj_wf (snd kv) && all l'
            end) items
  end.

(** A bound on the nesting of calls the decoder needs for an object. *)
Fixpoint obj_size (o : pyobj) : nat :=
  match o with
  | Str _ => 1
  | Dict items =>
      S ((fix sum (l : list (string * pyobj)) : nat :=
            match l with
            | [] => 0
            | kv :: l' => S (obj_size (snd kv) + sum l')
            end) items)
  end.

(** A table whose only row gives a text for the source language itself. *)
Definition table_with_en : table := [("Cancel", [("en", "Abort")])].

(** The first concrete scenario of the specification. *)
Definition table_cancel : table := [("Cancel", [("de", "Abbrechen"); ("fr", "Annuler")])].

(** What the decoder is shown to do on the encoding of an object: read
    it back, whatever the indentation level and whatever follows. *)
Definition reads_back (o : pyobj) : Prop :=
  ∀ level fuel rest,
    (obj_size o ≤ fuel)%nat → obj_wf o = true →
    scan_once fuel (iterencode level o +:+ rest) = Some (o, rest).

(** The first line the script prints. *)
Definition summary_line (t : table) : string :=
  "✓ Generated translations for " +:+ pretty (length t)
  +:+ " strings in 10 languages".

(** The second line the script prints. *)
Definition languages_line : string :=
  "  Languages: EN, DE, ES, FR, ZH-Hans, PT, JA, RU, KO, IT".

(** The characters [ESCAPE] does not match: neither a control character
    below 0x20, nor the quote, nor the backslash. *)
Definition plain_char (c : ascii) : bool :=
  let n := nat_of_ascii c in
  Nat.leb 32 n && negb (Nat.eqb n 34) && negb (Nat.eqb n 92).

Fixpoint plain (s : string) : bool :=
  match s with
  | EmptyString => true
  | String c s' => plain_char c && plain s'
  end.

(** The language codes of a row other than that of the source language. *)
Definition other_codes (items : row) : list string :=
  List.filter (fun L => negb (String.eqb L "en")) (Dict.keys items).

(** [translations.get(S, {})] *)
Definition row_of (t : table) (S : string) : row :=
  default [] (Dict.get S t).

(** The items the loop of [create_string_entry] stores. *)
Definition localization_items (items : row) : list (string * pyobj) :=
  map (fun kv => (fst kv, create_localization_entry (fst kv) (snd kv))) items.

(** The items the loop over [translations.keys()] stores. *)
Definition entry_items (t : table) (todo : list string) : list (string * pyobj) :=
  map (fun k => (k, create_string_entry t k)) todo.

(** The catalog whose strings are [entries]. *)
Definition catalog_with (entries : list (string * pyobj)) : pyobj :=
  Dict [("sourceLanguage", Str "en"); ("strings", Dict entries); ("version", Str "1.0")].

(** [catalog["strings"][S]["localizations"][L]["stringUnit"][field]] in
    the catalog built from [t]. *)
Definition string_unit (t : table) (S L field : string) : option pyobj :=
  catalog ← build_catalog t;
  getpath ["strings"; S; "localizations"; L; "stringUnit"; field] catalog.

(** [catalog["strings"][S]["localizations"]] in the catalog built from [t]. *)
Definition localizations_of (t : table) (S : string) : option pyobj :=
  catalog ← build_catalog t;
  getpath ["strings"; S; "localizations"] catalog.

(** [catalog["strings"]] in the catalog built from [t]. *)
Definition strings_of (t : table) : option pyobj :=
  catalog ← build_catalog t;
  getitem "strings" catalog.

(** The content of the output file after a run, and the table read back
    from it. *)
Definition emitted (t : table) (w : world) : option string :=
  w' ← run t w;
  Dict.get output_path (files w').

Definition reread (t : table) (w : world) : option table :=
  text ← emitted t w;
  document ← json_loads text;
  rederive_table document.

(** * Properties *)

(** ** Dictionaries *)
Module DictFacts.
Section facts.
Context {V : Type}.
Implicit Types (d items : list (string * V)) (k : string) (v : V).

Lemma get_None k d : Dict.get k d = None ↔ k ∉ Dict.keys d.
Proof.
  induction d as [|[k' v'] d IH]; simpl.
  - split; [intros _; apply not_elem_of_nil | done].
  - rewrite not_elem_of_cons. destruct (String.eqb_spec k k'); intuition congruence.
Qed.

Lemma get_Some_elem k v d : Dict.get k d = Some v → (k, v) ∈ d.
Proof.
  induction d as [|[k' v'] d IH]; simpl; [done|].
  destruct (String.eqb_spec k k') as [->|]; intros H.
  - injection H as ->. left.
  - right. auto.
Qed.

Lemma mem_true k d : Dict.mem k d = true ↔ k ∈ Dict.keys d.
Proof.
  unfold Dict.mem. destruct (Dict.get k d) eqn:E.
  - split; [intros _|done]. destruct (decide (k ∈ Dict.keys d)) as [|n]; [done|].
    apply get_None in n. congruence.
  - apply get_None in E. split; [done|intros; contradiction].
Qed.

Lemma mem_false k d : Dict.mem k d = false ↔ k ∉ Dict.keys d.
Proof. rewrite <- mem_true. destruct (Dict.mem k d); intuition congruence. Qed.

Lemma get_set_eq k v d : Dict.get k (Dict.set k v d) = Some v.
Proof.
  induction d as [|[k' v'] d IH]; simpl.
  - by rewrite String.eqb_refl.
  - destruct (String.eqb_spec k k') as [->|n]; simpl.
    + by rewrite String.eqb_refl.
    + by destruct (String.eqb_spec k k').
Qed.

Lemma get_set_ne k k' v d :
  k ≠ k' → Dict.get k' (Dict.set k v d) = Dict.get k' d.
Proof.
  intros n. induction d as [|[k1 v1] d IH]; simpl.
  - by destruct (String.eqb_spec k' k) as [->|].
  - destruct (String.eqb_spec k k1) as [->|]; simpl.
    + by destruct (String.eqb_spec k' k1) as [->|].
    + by rewrite IH.
Qed.

Lemma set_fresh k v d : Dict.get k d = None → Dict.set k v d = d ++ [(k, v)].
Proof.
  induction d as [|[k' v'] d IH]; simpl; [done|].
  destruct (String.eqb_spec k k'); [done|]. intros H. by rewrite IH.
Qed.

Lemma keys_set_present k v d :
  k ∈ Dict.keys d → Dict.keys (Dict.set k v d) = Dict.keys d.
Proof.
  induction d as [|[k' v'] d IH]; simpl.
  - by intros ?%elem_of_nil.
  - destruct (String.eqb_spec k k') as [->|n]; [done|].
    intros [?|?]%elem_of_cons; [done|]. simpl. f_equal. by apply IH.
Qed.

Lemma elem_keys_set x k v d :
  x ∈ Dict.keys (Dict.set k v d) ↔ x = k ∨ x ∈ Dict.keys d.
Proof.
  destruct (decide (k ∈ Dict.keys d)) as [Hin|Hout].
  - rewrite keys_set_present by done. intuition congruence.
  - apply get_None in Hout. rewrite set_fresh by done.
    unfold Dict.keys. rewrite map_app, elem_of_app. simpl.
    rewrite list_elem_of_singleton. tauto.
Qed.

Lemma wfb_NoDup d : Dict.wfb d = true ↔ NoDup (Dict.keys d).
Proof.
  induction d as [|[k v] d IH]; simpl.
  - split; [constructor | done].
  - rewrite NoDup_cons, andb_true_iff, negb_true_iff, mem_false, IH. done.
Qed.

Lemma wf_NoDup d : Dict.wf d ↔ NoDup (Dict.keys d).
Proof. apply wfb_NoDup. Qed.

Lemma wf_set k v d : Dict.wf d → Dict.wf (Dict.set k v d).
Proof.
  rewrite !wf_NoDup. intros H.
  destruct (decide (k ∈ Dict.keys d)) as [Hin|Hout].
  - by rewrite keys_set_present.
  - assert (Dict.get k d = None) as E by by apply get_None.
    rewrite set_fresh by done. unfold Dict.keys in *. rewrite map_app. simpl.
    apply NoDup_app. split_and!; [done| |apply NoDup_singleton].
    intros x Hx ->%list_elem_of_singleton. done.
Qed.

Lemma set_set k v d : Dict.set k v (Dict.set k v d) = Dict.set k v d.
Proof.
  induction d as [|[k' v'] d IH]; simpl.
  - by rewrite String.eqb_refl.
  - destruct (String.eqb_spec k k') as [->|n]; simpl.
    + by rewrite String.eqb_refl.
    + destruct (String.eqb_spec k k'); [done|]. by rewrite IH.
Qed.

Lemma update_cons kv items d :
  Dict.update (kv :: items) d = Dict.update items (Dict.set (fst kv) (snd kv) d).
Proof. done. Qed.

Lemma wf_update items d : Dict.wf d → Dict.wf (Dict.update items d).
Proof.
  revert d. induction items as [|kv items IH]; intros d H; [done|].
  rewrite update_cons. by apply IH, wf_set.
Qed.

Lemma elem_keys_update x items d :
  x ∈ Dict.keys (Dict.update items d) ↔ x ∈ Dict.keys d ∨ x ∈ Dict.keys items.
Proof.
  revert d. induction items as [|[k v] items IH]; intros d.
  - simpl. rewrite elem_of_nil. tauto.
  - rewrite update_cons, IH, elem_keys_set. simpl. rewrite elem_of_cons.
    tauto.
Qed.

Lemma get_update_notin k items d :
  k ∉ Dict.keys items → Dict.get k (Dict.update items d) = Dict.get k d.
Proof.
  revert d. induction items as [|[k' v'] items IH]; intros d; [done|].
  rewrite update_cons. simpl. rewrite not_elem_of_cons. intros [n Hout].
  rewrite IH by done. by apply get_set_ne.
Qed.

Lemma get_update_in k v items d :
  Dict.wf items → Dict.get k items = Some v →
  Dict.get k (Dict.update items d) = Some v.
Proof.
  revert d. induction items as [|[k' v'] items IH]; intros d; [done|].
  rewrite update_cons. unfold Dict.wf. simpl.
  rewrite andb_true_iff, negb_true_iff, mem_false. intros [Hout Hwf].
  destruct (String.eqb_spec k k') as [->|n].
  - intros [= ->]. rewrite get_update_notin by done. apply get_set_eq.
  - intros H. by apply IH.
Qed.

Lemma update_fresh items d :
  Dict.wf (d ++ items) → Dict.update items d = d ++ items.
Proof.
  revert d. induction items as [|[k v] items IH]; intros d H.
  - simpl. by rewrite app_nil_r.
  - rewrite update_cons. simpl.
    assert (Dict.get k d = None) as E.
    { apply get_None. apply wf_NoDup in H. unfold Dict.keys in *.
      rewrite map_app in H. apply NoDup_app in H as (_ & H & _).
      intros Hin. apply (H k Hin). simpl. left. }
    rewrite set_fresh by done. rewrite IH; rewrite <- app_assoc; done.
Qed.

Lemma display_wf items : Dict.wf items → Dict.display items = items.
Proof. intros H. unfold Dict.display. by rewrite update_fresh. Qed.

Lemma Forall_set (P : string * V → Prop) k v d :
  P (k, v) → Forall P d → Forall P (Dict.set k v d).
Proof.
  intros Hk. induction 1 as [|[k' v'] d Hx Hd IH]; simpl.
  - by constructor.
  - destruct (String.eqb_spec k k') as [->|]; constructor; done.
Qed.

Lemma Forall_update (P : string * V → Prop) items d :
  Forall P items → Forall P d → Forall P (Dict.update items d).
Proof.
  intros Hi. revert d. induction Hi as [|[k v] items Hx Hi IH]; intros d Hd; [done|].
  rewrite update_cons. apply IH. by apply Forall_set.
Qed.

End facts.
End DictFacts.

(** ** The builders *)
Section builders.
Implicit Types (t : table) (S L : string) (items : row).

Lemma get_update_entries {V} (f : string → V) (todo : list string) d S :
  S ∈ todo →
  Dict.get S (Dict.update (map (fun k => (k, f k)) todo) d) = Some (f S).
Proof.
  revert d. induction todo as [|k todo IH]; intros d.
  - by intros ?%elem_of_nil.
  - intros Hin. simpl map. rewrite DictFacts.update_cons. simpl fst. simpl snd.
    destruct (decide (S ∈ todo)) as [Hin'|Hout]; [by apply IH|].
    apply elem_of_cons in Hin as [->|]; [|done].
    rewrite DictFacts.get_update_notin.
    + apply DictFacts.get_set_eq.
    + unfold Dict.keys. by rewrite map_map, map_id.
Qed.

Lemma keys_localization_items items :
  Dict.keys (localization_items items) = Dict.keys items.
Proof. unfold Dict.keys, localization_items. by rewrite map_map. Qed.

Lemma keys_entry_items t todo : Dict.keys (entry_items t todo) = todo.
Proof. unfold Dict.keys, entry_items. by rewrite map_map, map_id. Qed.

Lemma get_localization_items L items :
  Dict.get L (localization_items items)
  = create_localization_entry L <$> Dict.get L items.
Proof.
  induction items as [|[k v] items IH]; simpl; [done|].
  by destruct (String.eqb_spec L k) as [->|].
Qed.

Lemma loop_localizations items locs :
  fold_left add_localization items locs
  = Dict.update (localization_items items) locs.
Proof.
  revert locs. induction items as [|[k v] items IH]; intros locs; [done|].
  simpl. by rewrite IH.
Qed.

(** The entry of a source string: the unit of the source language, then
    the row stored over it. *)
Lemma create_string_entry_eq t S :
  create_string_entry t S
  = Dict [("localizations",
           Dict (Dict.update (localization_items (row_of t S))
                   [("en", create_localization_entry "en" S)]))].
Proof.
  unfold create_string_entry, row_of.
  destruct (Dict.get S t) as [items|]; simpl; [|done].
  by rewrite loop_localizations.
Qed.

Lemma add_entries_eq t todo entries :
  add_entries t todo (catalog_with entries)
  = Some (catalog_with (Dict.update (entry_items t todo) entries)).
Proof.
  revert entries. induction todo as [|k todo IH]; intros entries; [done|].
  simpl add_entries. unfold add_string. simpl. apply IH.
Qed.

(** The loop never fails, and the catalog it leaves is in closed form. *)
Lemma build_catalog_eq t :
  build_catalog t
  = Some (catalog_with (Dict.update (entry_items t (Dict.keys t)) [])).
Proof. apply (add_entries_eq t (Dict.keys t) []). Qed.

Lemma strings_of_eq t :
  strings_of t = Some (Dict (Dict.update (entry_items t (Dict.keys t)) [])).
Proof. unfold strings_of. by rewrite build_catalog_eq. Qed.

(** With no source string twice in the table, every store of the loop adds
    a new item. *)
Lemma strings_of_wf t :
  Dict.wf t → strings_of t = Some (Dict (entry_items t (Dict.keys t))).
Proof.
  intros Hwf. rewrite strings_of_eq. rewrite DictFacts.update_fresh; [done|].
  simpl. apply DictFacts.wf_NoDup. rewrite keys_entry_items.
  by apply DictFacts.wf_NoDup.
Qed.

Lemma get_entry t S :
  Dict.mem S t = true →
  Dict.get S (Dict.update (entry_items t (Dict.keys t)) [])
  = Some (create_string_entry t S).
Proof.
  intros Hin%DictFacts.mem_true.
  by apply (get_update_entries (create_string_entry t)).
Qed.

Lemma localizations_of_eq t S :
  Dict.mem S t = true →
  localizations_of t S
  = Some (Dict (Dict.update (localization_items (row_of t S))
                  [("en", create_localization_entry "en" S)])).
Proof.
  intros Hin. unfold localizations_of. rewrite build_catalog_eq. simpl.
  rewrite get_entry by done. by rewrite create_string_entry_eq.
Qed.

Lemma string_unit_eq t S L field :
  Dict.mem S t = true →
  string_unit t S L field
  = u ← Dict.get L (Dict.update (localization_items (row_of t S))
                      [("en", create_localization_entry "en" S)]);
    getpath ["stringUnit"; field] u.
Proof.
  intros Hin. unfold string_unit. rewrite build_catalog_eq. simpl.
  rewrite get_entry by done. by rewrite create_string_entry_eq.
Qed.

Lemma get_mem {V} S (d : list (string * V)) v :
  Dict.get S d = Some v → Dict.mem S d = true.
Proof. unfold Dict.mem. by intros ->. Qed.

Lemma row_of_get t S items : Dict.get S t = Some items → row_of t S = items.
Proof. unfold row_of. by intros ->. Qed.

Lemma table_wf_row t S items :
  table_wf t = true → Dict.get S t = Some items → Dict.wf items.
Proof.
  unfold table_wf. rewrite andb_true_iff, forallb_forall.
  intros [_ Hrows] Hget%DictFacts.get_Some_elem.
  apply (Hrows (S, items)). by apply list_elem_of_In.
Qed.

Lemma table_wf_outer t : table_wf t = true → Dict.wf t.
Proof. unfold table_wf. rewrite andb_true_iff. by intros [? _]. Qed.

(** The unit stored for a language code of the row. *)
Lemma string_unit_of_row t S L field items translation :
  Dict.wf items →
  Dict.get S t = Some items →
  Dict.get L items = Some translation →
  string_unit t S L field
  = getpath ["stringUnit"; field] (create_localization_entry L translation).
Proof.
  intros Hwf HS HL. rewrite string_unit_eq by by eapply get_mem.
  rewrite (row_of_get _ _ _ HS).
  rewrite (DictFacts.get_update_in L (create_localization_entry L translation)).
  - done.
  - apply DictFacts.wf_NoDup. rewrite keys_localization_items.
    by apply DictFacts.wf_NoDup.
  - rewrite get_localization_items. by rewrite HL.
Qed.

End builders.

(** ** The catalog *)

(** C1, as stated, fails: in the catalog of the table
    [{"Cancel": {"en": "Abort"}}] the unit of the source language of
    ["Cancel"] holds ["Abort"], not the source string. *)
Lemma source_unit_not_always_source_text :
  table_wf table_with_en = true
  ∧ Dict.mem "Cancel" table_with_en = true
  ∧ string_unit table_with_en "Cancel" "en" "value" = Some (Str "Abort")
  ∧ string_unit table_with_en "Cancel" "en" "value" ≠ Some (Str "Cancel").
Proof. split_and!; [reflexivity..|discriminate]. Qed.

(** C1 (amended): for every source string S of the table whose row has no
    item for the language code "en", the unit of "en" in the localizations
    of strings[S] has the value S itself. *)
Theorem source_unit_is_source_text (t : table) (S : string) (items : row) :
  Dict.get S t = Some items →
  Dict.mem "en" items = false →
  string_unit t S "en" "value" = Some (Str S).
Proof.
  intros HS Hen. rewrite string_unit_eq by by eapply get_mem.
  rewrite (row_of_get _ _ _ HS). rewrite DictFacts.get_update_notin; [done|].
  rewrite keys_localization_items. by apply DictFacts.mem_false.
Qed.

Lemma source_unit_is_source_text_witness :
  Dict.get "Cancel" table_cancel = Some [("de", "Abbrechen"); ("fr", "Annuler")]
  ∧ Dict.mem "en" [("de", "Abbrechen"); ("fr", "Annuler")] = false
  ∧ string_unit table_cancel "Cancel" "en" "value" = Some (Str "Cancel").
Proof.
  split_and!; [reflexivity..|].
  apply (source_unit_is_source_text table_cancel "Cancel"
           [("de", "Abbrechen"); ("fr", "Annuler")]); reflexivity.
Defined.

(** C2: for every source string S of the table and every language code L
    of its row, the string unit of L in strings[S] has the value
    translations[S][L] and the state "translated". *)
Theorem translated_units (t : table) (S L : string) (items : row) (translation : string) :
  table_wf t = true →
  Dict.get S t = Some items →
  Dict.get L items = Some translation →
  string_unit t S L "value" = Some (Str translation)
  ∧ string_unit t S L "state" = Some (Str "translated").
Proof.
  intros Hwf HS HL.
  pose proof (table_wf_row _ _ _ Hwf HS) as Hrow.
  by rewrite !(string_unit_of_row t S L _ items translation).
Qed.

Lemma translated_units_witness :
  table_wf translations = true
  ∧ string_unit translations "Cancel scan" "fr" "value" = Some (Str "Annuler l'analyse")
  ∧ string_unit translations "Cancel scan" "fr" "state" = Some (Str "translated").
Proof.
  split; [vm_compute; reflexivity|].
  eapply (translated_units translations "Cancel scan" "fr");
    vm_compute; reflexivity.
Defined.

(** C3: for every source string S, the language codes of the
    localizations of its entry are exactly "en" and the language codes of
    translations.get(S, {}), each once; and for S in the table this entry
    is the one found under strings[S]. *)
Theorem localization_codes (t : table) (S : string) :
  ∃ locs,
    getitem "localizations" (create_string_entry t S) = Some (Dict locs)
    ∧ list_to_set (Dict.keys locs) =@{gset string}
        {["en"]} ∪ list_to_set (Dict.keys (row_of t S))
    ∧ NoDup (Dict.keys locs)
    ∧ (Dict.mem S t = true → localizations_of t S = Some (Dict locs)).
Proof.
  eexists. rewrite create_string_entry_eq. split; [reflexivity|].
  split_and!.
  - apply set_eq. intros x.
    rewrite elem_of_union, !elem_of_list_to_set, elem_of_singleton.
    rewrite DictFacts.elem_keys_update, keys_localization_items. simpl.
    rewrite list_elem_of_singleton. done.
  - apply DictFacts.wf_NoDup, DictFacts.wf_update. reflexivity.
  - apply localizations_of_eq.
Qed.

(** C4: the strings of the catalog have as many entries as the table has
    keys; no source string has two entries and each has one. *)
Theorem one_entry_per_source_string (t : table) :
  Dict.wf t →
  ∃ entries,
    strings_of t = Some (Dict entries)
    ∧ length entries = length t
    ∧ NoDup (Dict.keys entries)
    ∧ ∀ S, S ∈ Dict.keys entries ↔ S ∈ Dict.keys t.
Proof.
  intros Hwf. eexists. split; [by apply strings_of_wf|].
  rewrite keys_entry_items. split_and!.
  - unfold entry_items, Dict.keys. by rewrite !length_map.
  - by apply DictFacts.wf_NoDup.
  - done.
Qed.

Lemma one_entry_per_source_string_witness :
  Dict.wf translations
  ∧ ∃ entries,
      strings_of translations = Some (Dict entries)
      ∧ length entries = length translations
      ∧ NoDup (Dict.keys entries)
      ∧ ∀ S, S ∈ Dict.keys entries ↔ S ∈ Dict.keys translations.
Proof.
  split; [vm_compute; reflexivity|].
  apply (one_entry_per_source_string translations). vm_compute; reflexivity.
Defined.

(** C7: the entries of the strings of the catalog are in the iteration
    order of the table, and a table written as a literal with distinct keys
    iterates in the order of the literal. *)
Theorem entries_in_table_order (t : table) :
  Dict.wf t →
  (∃ entries,
     strings_of t = Some (Dict entries) ∧ Dict.keys entries = Dict.keys t)
  ∧ Dict.keys (Dict.display t) = Dict.keys t.
Proof.
  intros Hwf. split.
  - eexists. split; [by apply strings_of_wf|]. apply keys_entry_items.
  - by rewrite DictFacts.display_wf.
Qed.

Lemma entries_in_table_order_witness :
  Dict.wf translations
  ∧ (∃ entries,
       strings_of translations = Some (Dict entries)
       ∧ Dict.keys entries = Dict.keys translations)
  ∧ Dict.keys (Dict.display translations) = Dict.keys translations.
Proof.
  split; [vm_compute; reflexivity|].
  apply (entries_in_table_order translations). vm_compute; reflexivity.
Defined.

(** C8: if the row of a source string S has an item for the language code
    "en", the unit of "en" in strings[S] has the value of that item. *)
Theorem row_en_overwrites_source_unit (t : table) (S : string) (items : row) (text : string) :
  table_wf t = true →
  Dict.get S t = Some items →
  Dict.get "en" items = Some text →
  string_unit t S "en" "value" = Some (Str text).
Proof.
  intros Hwf HS Hen.
  pose proof (table_wf_row _ _ _ Hwf HS) as Hrow.
  by rewrite (string_unit_of_row t S "en" _ items text).
Qed.

Lemma row_en_overwrites_source_unit_witness :
  table_wf table_with_en = true
  ∧ Dict.get "Cancel" table_with_en = Some [("en", "Abort")]
  ∧ Dict.get "en" [("en", "Abort")] = Some "Abort"
  ∧ string_unit table_with_en "Cancel" "en" "value" = Some (Str "Abort").
Proof.
  split_and!; [reflexivity..|].
  apply (row_en_overwrites_source_unit table_with_en "Cancel" [("en", "Abort")]);
    reflexivity.
Defined.

(** C9: every localization unit of every entry of the catalog, the unit
    of the source language included, is a string unit with the state
    "translated". *)
Theorem every_unit_translated (t : table) :
  ∃ entries,
    build_catalog t = Some (catalog_with entries)
    ∧ Forall (fun entry =>
        ∃ locs,
          snd entry = Dict [("localizations", Dict locs)]
          ∧ Forall (fun unit =>
              ∃ value,
                snd unit = Dict [("stringUnit",
                                  Dict [("state", Str "translated");
                                        ("value", Str value)])]) locs)
        entries.
Proof.
  eexists. split; [apply build_catalog_eq|].
  apply DictFacts.Forall_update; [|constructor].
  apply List.Forall_forall. intros [k e] Hin. unfold entry_items in Hin.
  apply in_map_iff in Hin as (S & [= <- <-] & _).
  eexists. rewrite create_string_entry_eq. split; [reflexivity|].
  apply DictFacts.Forall_update.
  - apply List.Forall_forall. intros [L u] Hin. unfold localization_items in Hin.
    apply in_map_iff in Hin as ([L' v] & [= <- <-] & _). by eexists.
  - repeat constructor. by eexists.
Qed.

(** C10: the catalog has exactly the fields sourceLanguage, strings and
    version, in this order; sourceLanguage is "en", version is "1.0" and
    strings is a dict. *)
Theorem catalog_top_level (t : table) :
  ∃ catalog entries,
    build_catalog t = Some catalog
    ∧ keys_of catalog = ["sourceLanguage"; "strings"; "version"]
    ∧ getitem "sourceLanguage" catalog = Some (Str "en")
    ∧ getitem "strings" catalog = Some (Dict entries)
    ∧ getitem "version" catalog = Some (Str "1.0").
Proof.
  eexists _, _. split; [apply build_catalog_eq|]. by split_and!.
Qed.

(** ** Strings *)
Section strings.
Implicit Types (s r : string) (c : ascii).

Lemma append_cons c s r : String c s +:+ r = String c (s +:+ r).
Proof. reflexivity. Qed.

Lemma append_empty s : EmptyString +:+ s = s.
Proof. reflexivity. Qed.

Lemma append_empty_r s : s +:+ EmptyString = s.
Proof. induction s as [|c s IH]; [done|]. by rewrite append_cons, IH. Qed.

Lemma append_assoc s1 s2 s3 : (s1 +:+ s2) +:+ s3 = s1 +:+ s2 +:+ s3.
Proof. induction s1 as [|c s1 IH]; [done|]. by rewrite !append_cons, IH. Qed.

Lemma length_append s1 s2 :
  String.length (s1 +:+ s2) = String.length s1 + String.length s2.
Proof. induction s1 as [|c s1 IH]; [done|]. rewrite append_cons. simpl. by rewrite IH. Qed.

End strings.

(** ** The decoder reads back what the encoder writes *)
Section json.
Implicit Types (s rest : string) (c : ascii) (o : pyobj) (items : list (string * pyobj)).

Lemma pyobj_ind (P : pyobj → Prop) :
  (∀ s, P (Str s)) →
  (∀ items, Forall (fun kv => P (snd kv)) items → P (Dict items)) →
  ∀ o, P o.
Proof.
  intros HStr HDict. fix IH 1. intros [s|items]; [apply HStr|].
  apply HDict. induction items as [|kv items IHitems]; constructor.
  - apply IH.
  - apply IHitems.
Qed.

Lemma scanstring_escape_char c rest :
  scanstring (escape_char c +:+ rest)
  = r ← scanstring rest; Some (String c (fst r), snd r).
Proof. destruct c as [[] [] [] [] [] [] [] []]; reflexivity. Qed.

Lemma scanstring_escape s rest :
  scanstring (escape s +:+ String (ascii_of_nat 34) rest) = Some (s, rest).
Proof.
  induction s as [|c s IH]; [done|].
  simpl escape. rewrite append_assoc, scanstring_escape_char, IH. done.
Qed.

Lemma encode_basestring_app s rest :
  encode_basestring s +:+ rest = dq +:+ escape s +:+ dq +:+ rest.
Proof. unfold encode_basestring. by rewrite !append_assoc. Qed.

Lemma skip_ws_spaces n s : skip_ws (spaces n +:+ s) = skip_ws s.
Proof. induction n as [|n IH]; [done|]. simpl spaces. rewrite append_cons. apply IH. Qed.

Lemma skip_ws_newline_indent level s :
  skip_ws (newline_indent level +:+ s) = skip_ws s.
Proof. unfold newline_indent. rewrite append_cons. apply skip_ws_spaces. Qed.


(** Brings the characters an encoding starts with to the front. *)
Ltac expose :=
  unfold dq; rewrite ?append_cons, ?append_empty, ?scanstring_escape; simpl.

Lemma scan_once_S fuel c s :
  scan_once (S fuel) (String c s)
  = if Nat.eqb (nat_of_ascii c) 34 then
      r ← scanstring s; Some (Str (fst r), snd r)
    else if Nat.eqb (nat_of_ascii c) 123 then
      match skip_ws s with
      | EmptyString => None
      | String c1 s1 =>
          if Nat.eqb (nat_of_ascii c1) 125 then Some (Dict [], s1)
          else if Nat.eqb (nat_of_ascii c1) 34 then
            r ← scan_members fuel s1;
            Some (Dict (Dict.display (fst r)), snd r)
          else None
      end
    else None.
Proof. reflexivity. Qed.

Lemma scan_members_S fuel s :
  scan_members (S fuel) s
  = k ← scanstring s;
    match skip_ws (snd k) with
    | EmptyString => None
    | String c s1 =>
        if Nat.eqb (nat_of_ascii c) 58 then
          v ← scan_once fuel (skip_ws s1);
          match skip_ws (snd v) with
          | EmptyString => None
          | String c2 s2 =>
              if Nat.eqb (nat_of_ascii c2) 125 then Some ([(fst k, fst v)], s2)
              else if Nat.eqb (nat_of_ascii c2) 44 then
                match skip_ws s2 with
                | EmptyString => None
                | String c3 s3 =>
                    if Nat.eqb (nat_of_ascii c3) 34 then
                      r ← scan_members fuel s3;
                      Some ((fst k, fst v) :: fst r, snd r)
                    else None
                end
              else None
          end
        else None
    end.
Proof. reflexivity. Qed.

Lemma obj_size_Dict items :
  obj_size (Dict items)
  = S (list_sum (map (fun kv => S (obj_size (snd kv))) items)).
Proof.
  simpl. f_equal. induction items as [|kv items IH]; [done|].
  simpl. by rewrite IH.
Qed.

Lemma obj_wf_Dict items :
  obj_wf (Dict items)
  = Dict.wfb items && forallb (fun kv => obj_wf (snd kv)) items.
Proof. reflexivity. Qed.

Lemma skip_ws_iterencode level o rest :
  skip_ws (iterencode level o +:+ rest) = iterencode level o +:+ rest.
Proof. destruct o as [s|[|[k v] items]]; reflexivity. Qed.

Lemma encode_items_cons (enc : pyobj → string) sep first k v items rest :
  encode_items enc sep first ((k, v) :: items) +:+ rest
  = (if first then EmptyString else sep)
    +:+ dq +:+ escape k +:+ dq +:+ ": " +:+ enc v
    +:+ encode_items enc sep false items +:+ rest.
Proof.
  simpl encode_items. unfold encode_basestring. by rewrite !append_assoc.
Qed.

Opaque newline_indent encode_items iterencode escape.

Lemma scan_members_encode n m k v items fuel rest :
  Forall (fun kv => reads_back (snd kv)) ((k, v) :: items) →
  forallb (fun kv => obj_wf (snd kv)) ((k, v) :: items) = true →
  (list_sum (map (fun kv => S (obj_size (snd kv))) ((k, v) :: items)) ≤ fuel)%nat →
  scan_members fuel
    (escape k +:+ dq +:+ ": " +:+ iterencode n v
     +:+ encode_items (iterencode n) ("," +:+ newline_indent n) false items
     +:+ newline_indent m +:+ "}" +:+ rest)
  = Some ((k, v) :: items, rest).
Proof.
  revert k v fuel. induction items as [|[k' v'] items IH];
    intros k v fuel Hrb Hwf Hfuel;
    (destruct fuel as [|fuel]; [simpl in Hfuel; lia|]);
    apply Forall_cons in Hrb as [Hv Hrb];
    simpl in Hwf; apply andb_true_iff in Hwf as [Hwfv Hwf];
    rewrite scan_members_S; expose;
    rewrite skip_ws_iterencode, Hv by (simpl in *; done || lia); simpl.
  - change (encode_items (iterencode n) ("," +:+ newline_indent n) false [])
      with EmptyString.
    rewrite ?append_empty, skip_ws_newline_indent. expose. done.
  - rewrite encode_items_cons. simpl. rewrite ?append_assoc. expose.
    rewrite skip_ws_newline_indent. expose.
    assert (E := IH k' v' fuel Hrb Hwf ltac:(simpl in *; lia)).
    unfold dq in E. rewrite ?append_cons, ?append_empty in E. rewrite E. done.
Qed.

Lemma reads_back_all o : reads_back o.
Proof.
  induction o as [s|items IH] using pyobj_ind; intros level fuel rest Hfuel Hwf;
    (destruct fuel as [|fuel]; [simpl in Hfuel; lia|]).
  - change (iterencode level (Str s)) with (encode_basestring s).
    rewrite encode_basestring_app. expose. by rewrite scanstring_escape.
  - rewrite obj_size_Dict in Hfuel. rewrite obj_wf_Dict in Hwf.
    apply andb_true_iff in Hwf as [Hkeys Hwf].
    destruct items as [|[k v] items]; [done|].
    change (iterencode level (Dict ((k, v) :: items)))
      with ("{" +:+ newline_indent (S level)
            +:+ encode_items (iterencode (S level))
                  ("," +:+ newline_indent (S level)) true ((k, v) :: items)
            +:+ newline_indent level +:+ "}").
    rewrite !append_assoc, encode_items_cons. expose.
    rewrite skip_ws_newline_indent. expose.
    assert (E := scan_members_encode (S level) level k v items fuel rest
                   IH Hwf ltac:(lia)).
    unfold dq in E. rewrite ?append_cons, ?append_empty in E. rewrite E. simpl.
    by rewrite DictFacts.display_wf.
Qed.

Transparent newline_indent encode_items iterencode escape.

Lemma length_encode_basestring s :
  String.length (encode_basestring s) = 2 + String.length (escape s).
Proof. unfold encode_basestring. rewrite !length_append. simpl. lia. Qed.

Lemma size_le_length_items (enc : pyobj → string) sep first items :
  Forall (fun kv => (obj_size (snd kv) ≤ String.length (enc (snd kv)))%nat) items →
  (list_sum (map (fun kv => S (obj_size (snd kv))) items)
   ≤ String.length (encode_items enc sep first items))%nat.
Proof.
  intros Hall. revert first.
  induction Hall as [|[k v] items Hv Hall IH]; intros first; [simpl; lia|].
  simpl encode_items. rewrite !length_append, length_encode_basestring.
  specialize (IH false). simpl in *. lia.
Qed.

Lemma size_le_length level o :
  (obj_size o ≤ String.length (iterencode level o))%nat.
Proof.
  revert level. induction o as [s|items IH] using pyobj_ind; intros level.
  - change (iterencode level (Str s)) with (encode_basestring s).
    rewrite length_encode_basestring. simpl. lia.
  - rewrite obj_size_Dict. destruct items as [|[k v] items]; [simpl; lia|].
    change (iterencode level (Dict ((k, v) :: items)))
      with ("{" +:+ newline_indent (S level)
            +:+ encode_items (iterencode (S level))
                  ("," +:+ newline_indent (S level)) true ((k, v) :: items)
            +:+ newline_indent level +:+ "}").
    rewrite !length_append.
    pose proof (size_le_length_items (iterencode (S level))
                  ("," +:+ newline_indent (S level)) true ((k, v) :: items)) as Hl.
    simpl String.length at 1. 
    assert (Forall (fun kv => (obj_size (snd kv)
              ≤ String.length (iterencode (S level) (snd kv)))%nat) ((k, v) :: items)) as Hall.
    { eapply Forall_impl; [exact IH|]. intros kv H. apply H. }
    specialize (Hl Hall). lia.
Qed.

(** Decoding the encoding of an object, all of whose dicts have distinct
    keys, gives the object. *)
Lemma json_loads_dumps o : obj_wf o = true → json_loads (json_dumps o) = Some o.
Proof.
  intros Hwf. unfold json_loads, json_dumps.
  rewrite <- (append_empty_r (iterencode 0 o)) at 2.
  rewrite skip_ws_iterencode, reads_back_all; [done| |done].
  apply size_le_length.
Qed.

End json.

(** ** The output file *)
Section output.
Implicit Types (t : table) (w : world) (S L : string) (items : row).

Lemma obj_wf_unit L value : obj_wf (create_localization_entry L value) = true.
Proof. reflexivity. Qed.

Lemma obj_wf_items (items : list (string * pyobj)) d :
  Forall (fun kv => obj_wf (snd kv) = true) items →
  obj_wf (Dict d) = true →
  obj_wf (Dict (Dict.update items d)) = true.
Proof.
  rewrite !obj_wf_Dict, !andb_true_iff, !forallb_forall.
  intros Hitems [Hkeys Hd]. split.
  - by apply DictFacts.wf_update.
  - apply List.Forall_forall, DictFacts.Forall_update; [done|].
    by apply List.Forall_forall.
Qed.

Lemma obj_wf_entry t S : obj_wf (create_string_entry t S) = true.
Proof.
  rewrite create_string_entry_eq, obj_wf_Dict. cbn [forallb snd].
  rewrite obj_wf_items; [done| |done].
  apply List.Forall_forall. intros [L u] Hin. unfold localization_items in Hin.
  by apply in_map_iff in Hin as ([L' v] & [= <- <-] & _).
Qed.

(** Every dict of the catalog has distinct keys, whatever the table. *)
Lemma obj_wf_catalog t todo :
  obj_wf (catalog_with (Dict.update (entry_items t todo) [])) = true.
Proof.
  unfold catalog_with. rewrite obj_wf_Dict. cbn [forallb snd].
  rewrite obj_wf_items; [done| |done].
  apply List.Forall_forall. intros [k e] Hin. unfold entry_items in Hin.
  apply in_map_iff in Hin as (S & [= <- <-] & _). apply obj_wf_entry.
Qed.

Lemma run_eq t w :
  run t w
  = Some (print ("✓ Generated translations for " +:+ pretty (length t)
                 +:+ " strings in 10 languages")
            (json_dump (catalog_with (Dict.update (entry_items t (Dict.keys t)) []))
               output_path w)).
Proof. unfold run. by rewrite build_catalog_eq. Qed.

(** The file holds the encoding of the catalog, whatever it held before. *)
Lemma emitted_eq t w :
  emitted t w
  = Some (json_dumps (catalog_with (Dict.update (entry_items t (Dict.keys t)) []))).
Proof.
  unfold emitted. rewrite run_eq. simpl. apply DictFacts.get_set_eq.
Qed.

Lemma rederive_units_items items :
  Dict.mem "en" items = false →
  rederive_units (localization_items items) = Some items.
Proof.
  induction items as [|[k v] items IH]; [done|].
  rewrite !DictFacts.mem_false. simpl. rewrite not_elem_of_cons.
  intros [Hne Hout]. destruct (String.eqb_spec k "en") as [->|_]; [done|].
  rewrite IH by by apply DictFacts.mem_false. done.
Qed.

Lemma rederive_row_entry t S items :
  Dict.get S t = Some items →
  Dict.wf items →
  Dict.mem "en" items = false →
  rederive_row (create_string_entry t S) = Some items.
Proof.
  intros HS Hwf Hen. rewrite create_string_entry_eq, (row_of_get _ _ _ HS).
  rewrite DictFacts.update_fresh.
  - simpl. by apply rederive_units_items.
  - unfold Dict.wf. simpl. rewrite andb_true_iff, negb_true_iff. split.
    + apply DictFacts.mem_false. rewrite keys_localization_items.
      by apply DictFacts.mem_false.
    + apply DictFacts.wf_NoDup. rewrite keys_localization_items.
      by apply DictFacts.wf_NoDup.
Qed.

Lemma rederive_entries_items t todo :
  Forall (fun S => Dict.mem S t = true
                   ∧ Dict.wf (row_of t S)
                   ∧ Dict.mem "en" (row_of t S) = false) todo →
  rederive_entries (entry_items t todo)
  = Some (map (fun S => (S, row_of t S)) todo).
Proof.
  induction 1 as [|S todo (Hin & Hwf & Hen) Hall IH]; [done|].
  simpl. unfold Dict.mem in Hin. destruct (Dict.get S t) as [items|] eqn:HS; [|done].
  rewrite (rederive_row_entry t S (row_of t S)), IH; try done.
  by rewrite (row_of_get _ _ _ HS).
Qed.

Lemma rows_of_keys t :
  Dict.wf t → map (fun S => (S, row_of t S)) (Dict.keys t) = t.
Proof.
  induction t as [|[k r] t IH]; [done|].
  unfold Dict.wf. simpl. rewrite andb_true_iff, negb_true_iff, DictFacts.mem_false.
  intros [Hout Hwf]. f_equal.
  - unfold row_of. simpl. by rewrite String.eqb_refl.
  - rewrite <- IH at 2 by done. apply map_ext_in. intros S Hin. f_equal.
    unfold row_of. simpl. destruct (String.eqb_spec S k) as [->|]; [|done].
    exfalso. apply Hout. by apply list_elem_of_In.
Qed.

Lemma rederive_table_catalog_with entries :
  rederive_table (catalog_with entries) = rederive_entries entries.
Proof. reflexivity. Qed.

(** Reading the catalog of a table back gives the table, when no source
    string and no language code occurs twice and no row has an item for
    the source language. *)
Lemma rederive_catalog t :
  table_wf t = true →
  rows_without_en t = true →
  rederive_table (catalog_with (Dict.update (entry_items t (Dict.keys t)) []))
  = Some t.
Proof.
  intros Hwf Hen. pose proof (table_wf_outer _ Hwf) as Hkeys.
  rewrite DictFacts.update_fresh.
  2:{ simpl. apply DictFacts.wf_NoDup. rewrite keys_entry_items.
      by apply DictFacts.wf_NoDup. }
  rewrite app_nil_l, rederive_table_catalog_with.
  rewrite rederive_entries_items; [by rewrite rows_of_keys|].
  apply List.Forall_forall. intros S Hin.
  apply list_elem_of_In, DictFacts.mem_true in Hin.
  unfold Dict.mem in Hin. destruct (Dict.get S t) as [items|] eqn:HS; [|done].
  rewrite (row_of_get _ _ _ HS). split_and!.
  - by eapply get_mem.
  - by eapply table_wf_row.
  - unfold rows_without_en in Hen. rewrite forallb_forall in Hen.
    apply DictFacts.get_Some_elem, list_elem_of_In in HS.
    specialize (Hen _ HS). simpl in Hen. by apply negb_true_iff in Hen.
Qed.

End output.

(** ** The output *)

(** C5, as stated, fails: the catalog of the table
    [{"Cancel": {"en": "Abort"}}] is read back as [{"Cancel": {}}]. *)
Lemma reread_loses_row_en :
  table_wf table_with_en = true
  ∧ reread table_with_en (World [] []) = Some [("Cancel", [])]
  ∧ reread table_with_en (World [] []) ≠ Some table_with_en.
Proof. split_and!; [vm_compute; reflexivity..|vm_compute; discriminate]. Qed.

(** C5 (amended): for every table none of whose rows has an item for the
    language code "en", decoding the emitted file and reading the table
    back from the catalog (of each entry the localizations without the
    unit of "en", and of each other unit the value) gives the table. *)
Theorem reread_gives_table (t : table) (w : world) :
  table_wf t = true →
  rows_without_en t = true →
  reread t w = Some t.
Proof.
  intros Hwf Hen. unfold reread.
  apply bind_Some. eexists. split; [apply emitted_eq|].
  apply bind_Some. eexists. split; [apply json_loads_dumps, obj_wf_catalog|].
  by apply rederive_catalog.
Qed.

Lemma reread_gives_table_witness :
  table_wf translations = true
  ∧ rows_without_en translations = true
  ∧ reread translations (World [] []) = Some translations.
Proof.
  split_and!; [vm_compute; reflexivity..|].
  apply (reread_gives_table translations (World [] [])); vm_compute; reflexivity.
Defined.

(** C6: a run leaves in the output file the encoding of the catalog,
    which depends on the table alone; a second run on the same table
    writes the same bytes and leaves the files as the first run left
    them. *)
Theorem run_twice_same_output (t : table) (w : world) :
  ∃ w1 w2 text,
    run t w = Some w1
    ∧ run t w1 = Some w2
    ∧ Dict.get output_path (files w1) = Some text
    ∧ Dict.get output_path (files w2) = Some text
    ∧ files w2 = files w1
    ∧ ∀ w', emitted t w' = Some text.
Proof.
  eexists _, _, _. rewrite !run_eq. split_and!; [reflexivity..| | | |].
  - simpl. apply DictFacts.get_set_eq.
  - simpl. rewrite DictFacts.set_set. apply DictFacts.get_set_eq.
  - simpl. apply DictFacts.set_set.
  - apply emitted_eq.
Qed.

(** ** The shipped table and the scenarios of the specification *)

(** The table literal has distinct keys throughout, so the dict Python
    builds from it has the items of the literal in their order; and no row
    has an item for the source language. *)
Example translations_literal :
  Dict.display translations = translations
  ∧ table_wf translations = true
  ∧ rows_without_en translations = true
  ∧ length translations = 39.
Proof. vm_compute. by split_and!. Qed.

Example main_prints :
  (w ← main (World [] []); Some (stdout w))
  = Some ["✓ Generated translations for 39 strings in 10 languages";
          "  Languages: EN, DE, ES, FR, ZH-Hans, PT, JA, RU, KO, IT"].
Proof. vm_compute. reflexivity. Qed.

(** [{"Cancel": {"de": "Abbrechen", "fr": "Annuler"}}]: three
    localizations. *)
Example scenario_cancel :
  localizations_of table_cancel "Cancel"
  = Some (Dict [("en", create_localization_entry "en" "Cancel");
                ("de", create_localization_entry "de" "Abbrechen");
                ("fr", create_localization_entry "fr" "Annuler")]).
Proof. reflexivity. Qed.

(** [{"Orphan String": {}}]: the unit of the source language only. *)
Example scenario_orphan :
  localizations_of [("Orphan String", [])] "Orphan String"
  = Some (Dict [("en", create_localization_entry "en" "Orphan String")]).
Proof. reflexivity. Qed.

(** ** Further properties of the builders *)
Section more_builders.
Implicit Types (t : table) (S L : string) (items : row).

Lemma get_app {V} k (d1 d2 : list (string * V)) :
  Dict.get k (d1 ++ d2)
  = match Dict.get k d1 with Some v => Some v | None => Dict.get k d2 end.
Proof.
  induction d1 as [|[k' v'] d1 IH]; simpl; [done|].
  by destruct (String.eqb_spec k k').
Qed.

(** The keys after an update: those of the dict in their order, then the
    new ones in the order of the items. *)
Lemma keys_update {V} (new d : list (string * V)) :
  Dict.wf new →
  Dict.keys (Dict.update new d)
  = Dict.keys d ++ List.filter (fun k => negb (Dict.mem k d)) (Dict.keys new).
Proof.
  revert d. induction new as [|[k v] new IH]; intros d.
  - intros _. simpl. by rewrite app_nil_r.
  - unfold Dict.wf. rewrite DictFacts.update_cons. simpl.
    rewrite andb_true_iff, negb_true_iff, DictFacts.mem_false.
    intros [Hout Hwf]. rewrite IH by done.
    assert (List.filter (fun x => negb (Dict.mem x (Dict.set k v d))) (Dict.keys new)
            = List.filter (fun x => negb (Dict.mem x d)) (Dict.keys new)) as ->.
    { apply List.filter_ext_in. intros x Hx. unfold Dict.mem.
      rewrite DictFacts.get_set_ne; [done|].
      intros <-. apply Hout. by apply list_elem_of_In. }
    destruct (Dict.mem k d) eqn:Hk; simpl.
    + by rewrite DictFacts.keys_set_present by by apply DictFacts.mem_true.
    + rewrite DictFacts.set_fresh.
      * unfold Dict.keys. rewrite map_app. simpl. by rewrite <- app_assoc.
      * by apply DictFacts.get_None, DictFacts.mem_false.
Qed.

Lemma create_string_entry_ext t1 t2 S :
  Dict.get S t1 = Dict.get S t2 →
  create_string_entry t1 S = create_string_entry t2 S.
Proof. unfold create_string_entry. by intros ->. Qed.

Lemma script_eq t w :
  script t w
  = Some (print languages_line
            (print (summary_line t)
               (json_dump (catalog_with (Dict.update (entry_items t (Dict.keys t)) []))
                  output_path w))).
Proof. unfold script. by rewrite run_eq. Qed.

Lemma escape_char_plain (c : ascii) :
  plain_char c = true → escape_char c = String c EmptyString.
Proof.
  destruct c as [[] [] [] [] [] [] [] []]; intros H;
    first [reflexivity | discriminate H].
Qed.

Lemma length_escape_char (c : ascii) :
  if plain_char c then String.length (escape_char c) = 1
  else (2 ≤ String.length (escape_char c))%nat.
Proof. destruct c as [[] [] [] [] [] [] [] []]; vm_compute; lia. Qed.

Lemma length_escape (s : string) :
  (String.length s ≤ String.length (escape s))%nat
  ∧ (plain s = false → (String.length s < String.length (escape s))%nat).
Proof.
  induction s as [|c s [IHle IHlt]]; [by split|].
  simpl. rewrite length_append. pose proof (length_escape_char c) as Hc.
  destruct (plain_char c); simpl.
  - split; [lia|]. intros H. specialize (IHlt H). lia.
  - split; [lia|]. intros _. lia.
Qed.

(** The bytes of a UTF-8 sequence of more than one byte are plain. *)
Lemma plain_char_non_ascii (c : ascii) :
  (128 ≤ nat_of_ascii c)%nat → plain_char c = true.
Proof.
  intros H. unfold plain_char. cbv zeta.
  rewrite !andb_true_iff, !negb_true_iff, Nat.leb_le, !Nat.eqb_neq. lia.
Qed.

End more_builders.

(** The branch of [create_string_entry] for a text that is no key of the
    table: the unit of the source language alone. *)
Lemma create_string_entry_no_row (t : table) (S : string) :
  Dict.mem S t = false →
  create_string_entry t S
  = Dict [("localizations", Dict [("en", create_localization_entry "en" S)])].
Proof.
  unfold Dict.mem, create_string_entry.
  by destruct (Dict.get S t).
Qed.

(** X2: in the entry of a source string the unit of "en" comes first and
    the other language codes of the row follow in the order of the row; a
    row's own "en" item changes the value of the first unit and adds no
    unit. *)
Theorem localization_order (t : table) (S : string) (items : row) :
  Dict.get S t = Some items →
  Dict.wf items →
  ∃ locs,
    localizations_of t S = Some (Dict locs)
    ∧ Dict.keys locs = "en" :: other_codes items.
Proof.
  intros HS Hwf. eexists. split.
  - rewrite localizations_of_eq by by eapply get_mem.
    by rewrite (row_of_get _ _ _ HS).
  - rewrite keys_update.
    + rewrite keys_localization_items. simpl. f_equal. unfold other_codes.
      apply List.filter_ext. intros L. unfold Dict.mem. simpl.
      by destruct (String.eqb L "en").
    + apply DictFacts.wf_NoDup. rewrite keys_localization_items.
      by apply DictFacts.wf_NoDup.
Qed.

Lemma localization_order_witness :
  let t := [("Cancel", [("de", "Abbrechen"); ("en", "Abort"); ("fr", "Annuler")])] in
  Dict.get "Cancel" t = Some [("de", "Abbrechen"); ("en", "Abort"); ("fr", "Annuler")]
  ∧ Dict.wf [("de", "Abbrechen"); ("en", "Abort"); ("fr", "Annuler")]
  ∧ ∃ locs,
      localizations_of t "Cancel" = Some (Dict locs)
      ∧ Dict.keys locs
        = "en" :: other_codes [("de", "Abbrechen"); ("en", "Abort"); ("fr", "Annuler")].
Proof.
  intros t. split_and!; [reflexivity..|].
  apply (localization_order t "Cancel"
           [("de", "Abbrechen"); ("en", "Abort"); ("fr", "Annuler")]); reflexivity.
Defined.



(** X4: for every table, also one with doubled quotes, backslashes or
    control characters in its texts, the output file is a JSON document
    whose decoding is the catalog the loop built. *)
Theorem output_decodes_to_catalog (t : table) (w : world) :
  ∃ w' text catalog,
    script t w = Some w'
    ∧ Dict.get output_path (files w') = Some text
    ∧ build_catalog t = Some catalog
    ∧ json_loads text = Some catalog.
Proof.
  eexists _, _, _. split; [apply script_eq|]. split.
  { simpl. apply DictFacts.get_set_eq. }
  split; [apply build_catalog_eq|].
  apply json_loads_dumps, obj_wf_catalog.
Qed.

(** X5: the encoder writes a text between the quotes byte for byte
    exactly when the text has no control character below 0x20, no quote
    and no backslash; every other text is written longer than it is; and
    a byte from 0x80 on, so every byte of a character outside ASCII, is
    never escaped. *)
Theorem escape_verbatim (s : string) :
  (escape s = s ↔ plain s = true)
  ∧ (plain s = false → (String.length s < String.length (escape s))%nat)
  ∧ ∀ c : ascii, (128 ≤ nat_of_ascii c)%nat → escape_char c = String c EmptyString.
Proof.
  split_and!.
  - split.
    + intros H. destruct (plain s) eqn:Hp; [done|].
      apply length_escape in Hp. rewrite H in Hp. lia.
    + induction s as [|c s IH]; [done|].
      simpl. rewrite andb_true_iff. intros [Hc Hs].
      by rewrite escape_char_plain, IH.
  - apply length_escape.
  - intros c Hc. by apply escape_char_plain, plain_char_non_ascii.
Qed.

(** X6: on the empty table the script writes a catalog whose strings are
    the empty dict, encoded as a pair of braces on the line of its key, and
    reports 0 strings; and only the empty table gives empty strings. *)
Theorem empty_table (w : world) :
  (∃ w',
     script [] w = Some w'
     ∧ Dict.get output_path (files w')
       = Some ("{" +:+ newline_indent 1 +:+ dq +:+ "sourceLanguage" +:+ dq
               +:+ ": " +:+ dq +:+ "en" +:+ dq +:+ ","
               +:+ newline_indent 1 +:+ dq +:+ "strings" +:+ dq +:+ ": {},"
               +:+ newline_indent 1 +:+ dq +:+ "version" +:+ dq
               +:+ ": " +:+ dq +:+ "1.0" +:+ dq
               +:+ newline_indent 0 +:+ "}")
     ∧ stdout w'
       = stdout w ++ ["✓ Generated translations for 0 strings in 10 languages";
                      languages_line])
  ∧ ∀ t : table, strings_of t = Some (Dict []) → t = [].
Proof.
  split.
  - eexists. split; [apply script_eq|]. split.
    + simpl. rewrite DictFacts.get_set_eq. f_equal.
    + simpl. by rewrite <- app_assoc.
  - intros [|[k r] t]; [done|]. rewrite strings_of_eq. intros Heq.
    assert (k ∈ Dict.keys (Dict.update (entry_items ((k, r) :: t)
                                          (Dict.keys ((k, r) :: t))) [])) as Hin.
    { apply DictFacts.elem_keys_update. right. rewrite keys_entry_items.
      simpl. left. }
    assert (Dict.update (entry_items ((k, r) :: t) (Dict.keys ((k, r) :: t))) []
            = []) as H by congruence.
    rewrite H in Hin. by apply elem_of_nil in Hin.
Qed.

(** X7: adding a row for a new source string at the end of the table adds
    the entry of that string at the end of the strings of the catalog and
    leaves every earlier entry as it was; the new entry depends on the new
    row alone. *)
Theorem appended_row_appends_entry (t : table) (S : string) (items : row) :
  Dict.wf t →
  Dict.mem S t = false →
  ∃ entries,
    strings_of t = Some (Dict entries)
    ∧ strings_of (t ++ [(S, items)])
      = Some (Dict (entries ++ [(S, create_string_entry [(S, items)] S)])).
Proof.
  intros Hwf Hnew. eexists. split; [by apply strings_of_wf|].
  assert (Dict.get S t = None) as HS
    by by apply DictFacts.get_None, DictFacts.mem_false.
  rewrite strings_of_wf.
  - do 2 f_equal. unfold Dict.keys, entry_items. rewrite !map_app. simpl.
    f_equal.
    + rewrite !map_map. apply map_ext_in. intros [k r] Hin. simpl. f_equal.
      apply create_string_entry_ext. rewrite get_app.
      destruct (Dict.get k t) eqn:Hk; [done|].
      apply DictFacts.get_None in Hk. exfalso. apply Hk.
      apply list_elem_of_In. apply (in_map fst) in Hin. exact Hin.
    + do 2 f_equal. apply create_string_entry_ext. by rewrite get_app, HS.
  - apply DictFacts.wf_NoDup. unfold Dict.keys. rewrite map_app. simpl.
    apply NoDup_app. split_and!.
    + by apply DictFacts.wf_NoDup.
    + intros x Hx ->%list_elem_of_singleton.
      by apply DictFacts.mem_false in Hnew.
    + apply NoDup_singleton.
Qed.

Lemma appended_row_appends_entry_witness :
  Dict.wf table_cancel
  ∧ Dict.mem "Orphan String" table_cancel = false
  ∧ ∃ entries,
      strings_of table_cancel = Some (Dict entries)
      ∧ strings_of (table_cancel ++ [("Orphan String", [])])
        = Some (Dict (entries
                      ++ [("Orphan String",
                           create_string_entry [("Orphan String", [])]
                             "Orphan String")])).
Proof.
  split_and!; [reflexivity..|].
  apply (appended_row_appends_entry table_cancel "Orphan String" []); reflexivity.
Defined.

